(** * BBookmark: the timeline bookmark tool (App.tsx)

    A shallow embedding of the application controller of [App.tsx]: the
    React state of the component, the handlers that update it, the
    key-value store behind [AsyncStorage] and the JSON text the bookmark
    list is persisted as.

    Conventions of the model.
    - A JavaScript string is a [string] of bytes, read as the UTF-8 encoding
      of the text.  The empty string is the only falsy string.
    - An awaited promise either resolves with a value or rejects
      ([outcome]); what the platform answers is an argument of the handler
      that awaits it.
    - The handlers run one after the other, each to completion, as the
      specification describes the program ("sequential state management").
    - What a handler does to the outside world (native calls, alerts,
      console errors) is appended to the [effects] log of the state. *)

From Stdlib Require Import ZArith NArith String Ascii List Lia.
From stdpp Require Import base option list strings pretty gmap.

Local Open Scope string_scope.

(** ** The Bookmark record (App.tsx, lines 20-25) *)

Record Bookmark := mkBookmark {
  id : string;
  note : string;
  app : string;
  timestamp : string
}.

(** * JSON text of a bookmark list

    [JSON.stringify] and [JSON.parse] are the platform's.  They are
    modelled after ECMA-262 (QuoteJSONString, SerializeJSONObject,
    SerializeJSONArray and the JSON grammar), on the texts the program can
    store: arrays of objects whose members are strings. *)

Module JSON.

Definition dquote : ascii := "034"%char.
Definition backslash : ascii := "092"%char.

(** Lower-case hexadecimal digit of a number below 16. *)
Definition hex_digit (n : N) : ascii :=
  ascii_of_N (if (n <? 10)%N then 48 + n else 87 + n).

(** UnicodeEscape: backslash, u and four hexadecimal digits. *)
Definition unicode_escape (n : N) : string :=
  String backslash (String "u"
    (String (hex_digit ((n / 4096) mod 16))
      (String (hex_digit ((n / 256) mod 16))
        (String (hex_digit ((n / 16) mod 16))
          (String (hex_digit (n mod 16)) ""))))).

(** QuoteJSONString, one character: the seven characters of the escape
    table get their two-character escape, every other control character
    below U+0020 a unicode escape, and the rest is copied. *)
Definition quote_char (c : ascii) : string :=
  let n := N_of_ascii c in
  if (n =? 8)%N then String backslash "b"
  else if (n =? 9)%N then String backslash "t"
  else if (n =? 10)%N then String backslash "n"
  else if (n =? 12)%N then String backslash "f"
  else if (n =? 13)%N then String backslash "r"
  else if (n =? 34)%N then String backslash (String dquote "")
  else if (n =? 92)%N then String backslash (String backslash "")
  else if (n <? 32)%N then unicode_escape n
  else String c "".

Fixpoint quote_chars (s : string) : string :=
  match s with
  | EmptyString => ""
  | String c s' => quote_char c +:+ quote_chars s'
  end.

(** QuoteJSONString. *)
Definition quote (s : string) : string :=
  String dquote (quote_chars s +:+ String dquote "").

(** SerializeJSONObject of a bookmark: its four own properties in creation
    order, no white space (no gap was asked for). *)
Definition stringify_bookmark (b : Bookmark) : string :=
  "{" +:+ quote "id" +:+ ":" +:+ quote (id b) +:+
  "," +:+ quote "note" +:+ ":" +:+ quote (note b) +:+
  "," +:+ quote "app" +:+ ":" +:+ quote (app b) +:+
  "," +:+ quote "timestamp" +:+ ":" +:+ quote (timestamp b) +:+ "}".

Fixpoint stringify_elements (bs : list Bookmark) : string :=
  match bs with
  | [] => ""
  | [b] => stringify_bookmark b
  | b :: bs' => stringify_bookmark b +:+ "," +:+ stringify_elements bs'
  end.

(** [JSON.stringify] of a value of type [Bookmark[]]. *)
Definition stringify (bs : list Bookmark) : string :=
  "[" +:+ stringify_elements bs +:+ "]".

(** *** Parsing *)

(** JSON white space: space, tab, line feed, carriage return. *)
Definition is_ws (c : ascii) : bool :=
  let n := N_of_ascii c in
  ((n =? 32) || (n =? 9) || (n =? 10) || (n =? 13))%N.

Fixpoint skip_ws (s : string) : string :=
  match s with
  | String c s' => if is_ws c then skip_ws s' else s
  | EmptyString => s
  end.

(** Value of a hexadecimal digit, either case. *)
Definition hex_value (c : ascii) : option N :=
  let n := N_of_ascii c in
  if ((48 <=? n) && (n <=? 57))%N then Some (n - 48)%N
  else if ((97 <=? n) && (n <=? 102))%N then Some (n - 87)%N
  else if ((65 <=? n) && (n <=? 70))%N then Some (n - 55)%N
  else None.

Definition hex4 (a b c d : ascii) : option N :=
  match hex_value a, hex_value b, hex_value c, hex_value d with
  | Some x, Some y, Some z, Some w => Some (((x * 16 + y) * 16 + z) * 16 + w)%N
  | _, _, _, _ => None
  end.

(** UTF-8 bytes of a code point below U+110000, in front of [k]. *)
Definition utf8 (n : N) (k : string) : string :=
  if (n <? 128)%N then String (ascii_of_N n) k
  else if (n <? 2048)%N then
    String (ascii_of_N (192 + n / 64))
      (String (ascii_of_N (128 + n mod 64)) k)
  else if (n <? 65536)%N then
    String (ascii_of_N (224 + n / 4096))
      (String (ascii_of_N (128 + (n / 64) mod 64))
        (String (ascii_of_N (128 + n mod 64)) k))
  else
    String (ascii_of_N (240 + n / 262144))
      (String (ascii_of_N (128 + (n / 4096) mod 64))
        (String (ascii_of_N (128 + (n / 64) mod 64))
          (String (ascii_of_N (128 + n mod 64)) k))).

Definition is_high_surrogate (n : N) : bool := ((55296 <=? n) && (n <? 56320))%N.
Definition is_low_surrogate (n : N) : bool := ((56320 <=? n) && (n <? 57344))%N.

Definition prepend (f : string → string) (r : option (string * string))
  : option (string * string) :=
  match r with
  | Some (s, rest) => Some (f s, rest)
  | None => None
  end.

(** The characters of a string literal after its opening quote, up to and
    including the closing quote: the decoded string and the text that
    follows.  A raw control character, an unknown escape or an unterminated
    literal is a syntax error.  A surrogate escape that is not half of a
    pair has no UTF-8 encoding and is outside the model: it is refused. *)
Fixpoint parse_chars (s : string) : option (string * string) :=
  match s with
  | EmptyString => None
  | String c s1 =>
    if (N_of_ascii c =? 34)%N then Some ("", s1)
    else if (N_of_ascii c =? 92)%N then
      match s1 with
      | EmptyString => None
      | String e s2 =>
        let n := N_of_ascii e in
        if (n =? 34)%N then prepend (String dquote) (parse_chars s2)
        else if (n =? 92)%N then prepend (String backslash) (parse_chars s2)
        else if (n =? 47)%N then prepend (String "/") (parse_chars s2)
        else if (n =? 98)%N then prepend (String "008") (parse_chars s2)
        else if (n =? 102)%N then prepend (String "012") (parse_chars s2)
        else if (n =? 110)%N then prepend (String "010") (parse_chars s2)
        else if (n =? 114)%N then prepend (String "013") (parse_chars s2)
        else if (n =? 116)%N then prepend (String "009") (parse_chars s2)
        else if (n =? 117)%N then
          match s2 with
          | String h1 (String h2 (String h3 (String h4 s3))) =>
            match hex4 h1 h2 h3 h4 with
            | None => None
            | Some u =>
              if is_low_surrogate u then None
              else if is_high_surrogate u then
                match s3 with
                | String b (String v (String l1 (String l2 (String l3 (String l4 s4))))) =>
                  if ((N_of_ascii b =? 92) && (N_of_ascii v =? 117))%N then
                    match hex4 l1 l2 l3 l4 with
                    | None => None
                    | Some w =>
                      if is_low_surrogate w then
                        prepend (utf8 (65536 + (u - 55296) * 1024 + (w - 56320)))
                                (parse_chars s4)
                      else None
                    end
                  else None
                | _ => None
                end
              else prepend (utf8 u) (parse_chars s3)
            end
          | _ => None
          end
        else None
      end
    else if (N_of_ascii c <? 32)%N then None
    else prepend (String c) (parse_chars s1)
  end.

(** A string literal at the head of the text. *)
Definition parse_string (s : string) : option (string * string) :=
  match s with
  | String c s' => if (N_of_ascii c =? 34)%N then parse_chars s' else None
  | EmptyString => None
  end.

(** The members of an object after the opening brace, when there is at
    least one: [key : string], separated by commas, up to and including the
    closing brace.  Members are returned in the order of the text. *)
Fixpoint parse_members (fuel : nat) (s : string)
  : option (list (string * string) * string) :=
  match fuel with
  | O => None
  | S fuel' =>
    match parse_string (skip_ws s) with
    | None => None
    | Some (k, s1) =>
      match skip_ws s1 with
      | String ":" s2 =>
        match parse_string (skip_ws s2) with
        | None => None
        | Some (v, s3) =>
          match skip_ws s3 with
          | String "," s4 =>
            match parse_members fuel' s4 with
            | Some (kvs, s5) => Some ((k, v) :: kvs, s5)
            | None => None
            end
          | String "}" s4 => Some ([(k, v)], s4)
          | _ => None
          end
        end
      | _ => None
      end
    end
  end.

(** An object at the head of the text. *)
Definition parse_object (fuel : nat) (s : string)
  : option (list (string * string) * string) :=
  match s with
  | String "{" s1 =>
    match skip_ws s1 with
    | String "}" s2 => Some ([], s2)
    | _ => parse_members fuel s1
    end
  | _ => None
  end.

(** The value of property [k]: when a name is repeated the last member
    wins, as in [JSON.parse]. *)
Fixpoint property (k : string) (kvs : list (string * string)) : option string :=
  match kvs with
  | [] => None
  | (k', v) :: kvs' =>
    match property k kvs' with
    | Some v' => Some v'
    | None => if String.eqb k k' then Some v else None
    end
  end.

(** The bookmark a parsed object stands for.  An object that lacks one of
    the four properties is not a [Bookmark] and is refused; properties of
    other names are not read by the program. *)
Definition bookmark_of_object (kvs : list (string * string)) : option Bookmark :=
  match property "id" kvs, property "note" kvs,
        property "app" kvs, property "timestamp" kvs with
  | Some i, Some n, Some a, Some t => Some (mkBookmark i n a t)
  | _, _, _, _ => None
  end.

(** The elements of an array after the opening bracket, when there is at
    least one, up to and including the closing bracket. *)
Fixpoint parse_elements (fuel : nat) (s : string)
  : option (list Bookmark * string) :=
  match fuel with
  | O => None
  | S fuel' =>
    match parse_object fuel' (skip_ws s) with
    | None => None
    | Some (kvs, s1) =>
      match bookmark_of_object kvs with
      | None => None
      | Some b =>
        match skip_ws s1 with
        | String "," s2 =>
          match parse_elements fuel' s2 with
          | Some (bs, s3) => Some (b :: bs, s3)
          | None => None
          end
        | String "]" s2 => Some ([b], s2)
        | _ => None
        end
      end
    end
  end.

Definition parse_array (fuel : nat) (s : string) : option (list Bookmark * string) :=
  match s with
  | String "[" s1 =>
    match skip_ws s1 with
    | String "]" s2 => Some ([], s2)
    | _ => parse_elements fuel s1
    end
  | _ => None
  end.

(** [JSON.parse] of a text, read as a [Bookmark[]]: [None] where
    [JSON.parse] throws a SyntaxError (and on a text that is no array of
    objects of strings, which the program never stores).  Every loop of
    the parser consumes a character per turn, so the length of the text is
    fuel enough. *)
Definition parse (s : string) : option (list Bookmark) :=
  match parse_array (S (String.length s)) (skip_ws s) with
  | Some (bs, rest) =>
    match skip_ws rest with
    | EmptyString => Some bs
    | _ => None
    end
  | None => None
  end.

End JSON.

(** * The application controller (App.tsx) *)

(** What an awaited promise settles to. *)
Inductive outcome (A : Type) : Type :=
| Resolved (a : A)
| Rejected.
Arguments Resolved {A} a.
Arguments Rejected {A}.

(** The capture context, [{app: string; timestamp: string}] (line 32). *)
Module Capture.
Record t := mk {
  app : string;
  timestamp : string
}.
End Capture.

(** The methods of the native collaborator [FloatingWidgetModule]. *)
Inductive NativeMethod :=
| HasOverlayPermission
| RequestOverlayPermission
| IsServiceRunning
| StartFloatingWidgetService
| StopFloatingWidgetService
| GetForegroundApp.

(** What a handler does to the outside world. *)
Inductive Effect :=
| CallNative (m : NativeMethod)
| AlertAlert (title message : string)
| ConsoleError (message : string).

(** The six [useState] cells of the component (lines 28-33), the store
    behind [AsyncStorage], and the log of effects. *)
Record State := mkState {
  hasPermission : bool;
  isServiceRunning : bool;
  modalVisible : bool;
  currentNote : string;
  context : option Capture.t;
  bookmarks : list Bookmark;
  storage : gmap string string;
  effects : list Effect
}.

Definition setHasPermission (v : bool) (st : State) : State :=
  mkState v (isServiceRunning st) (modalVisible st) (currentNote st)
          (context st) (bookmarks st) (storage st) (effects st).

Definition setIsServiceRunning (v : bool) (st : State) : State :=
  mkState (hasPermission st) v (modalVisible st) (currentNote st)
          (context st) (bookmarks st) (storage st) (effects st).

Definition setModalVisible (v : bool) (st : State) : State :=
  mkState (hasPermission st) (isServiceRunning st) v (currentNote st)
          (context st) (bookmarks st) (storage st) (effects st).

Definition setCurrentNote (v : string) (st : State) : State :=
  mkState (hasPermission st) (isServiceRunning st) (modalVisible st) v
          (context st) (bookmarks st) (storage st) (effects st).

Definition setContext (v : option Capture.t) (st : State) : State :=
  mkState (hasPermission st) (isServiceRunning st) (modalVisible st)
          (currentNote st) v (bookmarks st) (storage st) (effects st).

Definition setBookmarks (v : list Bookmark) (st : State) : State :=
  mkState (hasPermission st) (isServiceRunning st) (modalVisible st)
          (currentNote st) (context st) v (storage st) (effects st).

Definition setStorage (v : gmap string string) (st : State) : State :=
  mkState (hasPermission st) (isServiceRunning st) (modalVisible st)
          (currentNote st) (context st) (bookmarks st) v (effects st).

(** Append an effect to the log. *)
Definition emit (e : Effect) (st : State) : State :=
  mkState (hasPermission st) (isServiceRunning st) (modalVisible st)
          (currentNote st) (context st) (bookmarks st) (storage st)
          (effects st ++ [e]).

(** [AsyncStorage]: a store of strings under string keys.  [getItem]
    answers null ([None]) for a key that was never set. *)
Module AsyncStorage.
Definition getItem (key : string) (store : gmap string string) : option string :=
  store !! key.
Definition setItem (key value : string) (store : gmap string string)
  : gmap string string :=
  <[key := value]> store.
End AsyncStorage.

(** JavaScript truthiness of a string: every string but the empty one. *)
Definition truthy (s : string) : bool :=
  match s with
  | EmptyString => false
  | String _ _ => true
  end.

(** The state of a freshly mounted component over a given store. *)
Definition initial (store : gmap string string) : State :=
  mkState false false false "" None [] store [].

(** [loadBookmarks] (lines 37-46).  [read_ok] tells whether the promise of
    [getItem] resolves; a rejection and a syntax error of [JSON.parse] both
    end in the [catch].  A stored text that is valid JSON but no array of
    bookmarks, which the program never writes, is outside the model:
    [JSON.parse] answers [None] on it, where the platform returns a value
    that is no [Bookmark[]]. *)
Definition loadBookmarks (read_ok : bool) (st : State) : State :=
  if read_ok then
    match AsyncStorage.getItem "bookmarks" (storage st) with
    | Some storedBookmarks =>
      if truthy storedBookmarks then
        match JSON.parse storedBookmarks with
        | Some bs => setBookmarks bs st
        | None => emit (ConsoleError "Failed to load bookmarks.") st
        end
      else st
    | None => st
    end
  else emit (ConsoleError "Failed to load bookmarks.") st.

(** [checkStatus] (lines 52-63). *)
Definition checkStatus (permissionStatus serviceStatus : outcome bool)
    (st : State) : State :=
  let st1 := emit (CallNative HasOverlayPermission) st in
  match permissionStatus with
  | Rejected => emit (ConsoleError "Failed to check status.") st1
  | Resolved p =>
    let st2 := setHasPermission p st1 in
    if p then
      let st3 := emit (CallNative IsServiceRunning) st2 in
      match serviceStatus with
      | Rejected => emit (ConsoleError "Failed to check status.") st3
      | Resolved s => setIsServiceRunning s st3
      end
    else st2
  end.

(** The listener of [onFloatingButtonPress] (lines 71-81).  [timestamp] is
    what [new Date().toLocaleString()] gives when the listener runs. *)
Definition onFloatingButtonPress (foregroundApp : outcome string)
    (timestamp : string) (st : State) : State :=
  let st1 := emit (CallNative GetForegroundApp) st in
  match foregroundApp with
  | Resolved a =>
    setModalVisible true (setContext (Some (Capture.mk a timestamp)) st1)
  | Rejected =>
    emit (AlertAlert "Error" "Could not get current app info. You may need to grant Usage Access permission manually in your phone's settings.")
      (emit (ConsoleError "Failed to get context") st1)
  end.

(** [requestPermission] (lines 89-103). *)
Definition requestPermission (granted : outcome bool) (st : State) : State :=
  let st1 := emit (CallNative RequestOverlayPermission) st in
  match granted with
  | Resolved g =>
    let st2 := setHasPermission g st1 in
    if negb g then
      emit (AlertAlert "Permission Denied" "The floating button requires 'Draw over other apps' permission. Please grant it from the settings.") st2
    else st2
  | Rejected => emit (ConsoleError "Failed to request permission") st1
  end.

(** [toggleService] (lines 105-115).  [granted] is the answer to the
    permission request of the last branch. *)
Definition toggleService (granted : outcome bool) (st : State) : State :=
  if isServiceRunning st then
    setIsServiceRunning false (emit (CallNative StopFloatingWidgetService) st)
  else if hasPermission st then
    setIsServiceRunning true (emit (CallNative StartFloatingWidgetService) st)
  else requestPermission granted st.

(** The bookmark [handleSaveNote] builds (lines 121-126): [now] is the
    value of [Date.now()], an integer number of milliseconds, and its
    [toString()] is its decimal numeral. *)
Definition newBookmark (now : Z) (text : string) (c : Capture.t) : Bookmark :=
  {| id := pretty now;
     note := text;
     app := Capture.app c;
     timestamp := Capture.timestamp c |}.

(** [handleSaveNote] (lines 117-139).  [write_ok] tells whether the promise
    of [setItem] resolves; a rejected write leaves the store as it was.
    The handler is one step, from the press to the settling of the write: an
    event that arrives while the write is pending is not modelled. *)
Definition handleSaveNote (now : Z) (write_ok : bool) (st : State) : State :=
  match truthy (currentNote st), context st with
  | true, Some c =>
    let updatedBookmarks := newBookmark now (currentNote st) c :: bookmarks st in
    let st1 := setBookmarks updatedBookmarks st in
    if write_ok then
      let st2 :=
        setStorage (AsyncStorage.setItem "bookmarks"
                      (JSON.stringify updatedBookmarks) (storage st1)) st1 in
      setModalVisible false (setContext None (setCurrentNote "" st2))
    else
      emit (AlertAlert "Error" "Could not save the bookmark.")
        (emit (ConsoleError "Failed to save bookmark.") st1)
  | _, _ => st
  end.

(** ** Events of a session

    What can happen to a mounted component: the native service reports a
    press of the floating button, or the user touches a control of the
    screen.  Each event carries what the platform answers while its handler
    runs. *)
Inductive Event :=
| FloatingButtonPress (foregroundApp : outcome string) (timestamp : string)
| PressRequestPermission (granted : outcome bool)
| PressToggleService (granted : outcome bool)
| ChangeText (text : string)
| PressSaveNote (now : Z) (write_ok : bool)
| PressCancel.

Definition step (ev : Event) (st : State) : State :=
  match ev with
  | FloatingButtonPress a ts => onFloatingButtonPress a ts st
  | PressRequestPermission g => requestPermission g st
  | PressToggleService g => toggleService g st
  | ChangeText s => setCurrentNote s st
  | PressSaveNote now ok => handleSaveNote now ok st
  | PressCancel => setModalVisible false st
  end.

(** Which controls the rendered screen offers (lines 173-222): the
    permission button is rendered without the permission only, the service
    button is disabled without it, and the text input and the two buttons
    of the dialog exist while the dialog is visible (its [onRequestClose]
    does what Cancel does). *)
Definition enabled (st : State) (ev : Event) : bool :=
  match ev with
  | FloatingButtonPress _ _ => true
  | PressRequestPermission _ => negb (hasPermission st)
  | PressToggleService _ => hasPermission st
  | ChangeText _ | PressSaveNote _ _ | PressCancel => modalVisible st
  end.

Definition run_events (evs : list Event) (st : State) : State :=
  foldl (λ st ev, step ev st) st evs.

(** Mounting the component: the state cells take their initial values and
    the two start-up effects run (lines 36-65), each to its end, the load
    first.  The two touch different cells, so the cells do not depend on
    the order in which their promises settle; only the order of the log
    does. *)
Definition mount (read_ok : bool) (permissionStatus serviceStatus : outcome bool)
    (store : gmap string string) : State :=
  checkStatus permissionStatus serviceStatus
    (loadBookmarks read_ok (initial store)).

(** ** Lifetime of the installed application

    The process can be killed and the application launched again: the
    component is mounted anew over the store the last session left. *)
Inductive Action :=
| Launch (read_ok : bool) (permissionStatus serviceStatus : outcome bool)
| UI (ev : Event).

Definition act (a : Action) (st : State) : State :=
  match a with
  | Launch r p s => mount r p s (storage st)
  | UI ev => step ev st
  end.

Definition run (acts : list Action) (st : State) : State :=
  foldl (λ st a, act a st) st acts.

(** The states the screen can be in: a launch over any store, then events
    the screen offers. *)
Inductive reachable : State → Prop :=
| reachable_mount r p s store : reachable (mount r p s store)
| reachable_step st ev :
    reachable st → enabled st ev = true → reachable (step ev st).

(** Does [handleSaveNote] get past its guard (line 118)? *)
Definition saves (st : State) : bool :=
  truthy (currentNote st) && bool_decide (is_Some (context st)).

(** The value [Date.now()] returns while an action runs: one for a save
    that gets past the guard, none otherwise. *)
Definition reading (a : Action) (st : State) : list Z :=
  match a with
  | UI (PressSaveNote now _) => if saves st then [now] else []
  | _ => []
  end.

(** The values [Date.now()] returns during a run, oldest first. *)
Fixpoint readings (acts : list Action) (st : State) : list Z :=
  match acts with
  | [] => []
  | a :: acts' => reading a st ++ readings acts' (act a st)
  end.

(** The bookmark list the persisted blob stands for. *)
Definition persisted (st : State) : option (list Bookmark) :=
  AsyncStorage.getItem "bookmarks" (storage st) ≫= JSON.parse.

(** The effects a handler added when it took [st] to [st']. *)
Definition issued (st st' : State) : list Effect :=
  drop (List.length (effects st)) (effects st').

(** The cells of the component and the store, without the effects log. *)
Definition data (st : State) :=
  (hasPermission st, isServiceRunning st, modalVisible st, currentNote st,
   context st, bookmarks st, storage st).

(** An event that neither captures a new context nor saves. *)
Definition keeps_context (ev : Event) : bool :=
  match ev with
  | FloatingButtonPress (Resolved _) _ => false
  | PressSaveNote _ _ => false
  | _ => true
  end.

(** Every identifier in memory and in the blob is the numeral of a clock
    reading in [seen] (newest first), in the order of the readings. *)
Definition ids_from (seen : list Z) (st : State) : Prop :=
  (id <$> bookmarks st) `sublist_of` (pretty <$> seen)
  ∧ (storage st !! "bookmarks" = None
     ∨ ∃ bs, storage st !! "bookmarks" = Some (JSON.stringify bs)
             ∧ (id <$> bs) `sublist_of` (pretty <$> seen)).


(** A promise of a boolean that resolves to true. *)
Definition resolved_true (o : outcome bool) : bool :=
  match o with
  | Resolved true => true
  | _ => false
  end.


(** ** Sample sessions

    A first launch with the permission granted, and a session in which the
    service was started, the floating button pressed over a browser and a
    note typed. *)
Definition launched : State :=
  mount true (Resolved true) (Resolved false) ∅.

Definition captured : State :=
  run_events [PressToggleService Rejected;
              FloatingButtonPress (Resolved "com.android.chrome")
                                  "1/2/2024, 3:04:05 PM";
              ChangeText "read later"] launched.

(** Two notes saved in one session while [Date.now()] answers the same
    millisecond twice (the wall clock was set back in between). *)
Definition same_reading_session : State :=
  run_events [PressSaveNote 1704207845000 true;
              FloatingButtonPress (Resolved "com.android.settings")
                                  "1/2/2024, 3:02:00 PM";
              ChangeText "check this";
              PressSaveNote 1704207845000 true] captured.

(** A second capture, over another application, after the first note was
    saved and written: the list holds one bookmark and the dialog is open
    on a new note. *)
Definition captured_again : State :=
  run_events [PressSaveNote 1704207845000 true;
              FloatingButtonPress (Resolved "com.android.settings")
                                  "1/2/2024, 3:10:00 PM";
              ChangeText "check this"] captured.


(** * Theorems *)

(** ** Round trip of the JSON text *)

Module JSONFacts.
Import JSON.

Lemma append_nil (b : string) : "" +:+ b = b.
Proof. reflexivity. Qed.

Lemma append_cons (x : ascii) (a b : string) :
  String x a +:+ b = String x (a +:+ b).
Proof. reflexivity. Qed.

Lemma append_assoc (a b c : string) : (a +:+ b) +:+ c = a +:+ (b +:+ c).
Proof.
  induction a as [|x a IH]; [reflexivity |].
  rewrite !append_cons. now rewrite IH.
Qed.

Lemma append_length (a b : string) :
  String.length (a +:+ b) = String.length a + String.length b.
Proof.
  induction a as [|x a IH]; [reflexivity |].
  rewrite append_cons. simpl. now rewrite IH.
Qed.

(** Reading back one quoted character gives the character. *)
Lemma parse_chars_quote_char (c : ascii) (rest : string) :
  parse_chars (quote_char c +:+ rest) = prepend (String c) (parse_chars rest).
Proof.
  destruct c as [[] [] [] [] [] [] [] []]; reflexivity.
Qed.

Lemma parse_chars_quote_chars (s rest : string) :
  parse_chars (quote_chars s +:+ String dquote rest) = Some (s, rest).
Proof.
  induction s as [|c s IH]; cbn [quote_chars].
  - reflexivity.
  - rewrite append_assoc, parse_chars_quote_char, IH. reflexivity.
Qed.

Lemma parse_string_quote (s rest : string) :
  parse_string (quote s +:+ rest) = Some (s, rest).
Proof.
  unfold quote. rewrite append_cons, append_assoc, append_cons, append_nil.
  apply parse_chars_quote_chars.
Qed.

Lemma skip_ws_cons (c : ascii) (s : string) :
  is_ws c = false → skip_ws (String c s) = String c s.
Proof. intros H. simpl. now rewrite H. Qed.

Lemma quote_head (s rest : string) :
  quote s +:+ rest = String dquote (quote_chars s +:+ String dquote rest).
Proof.
  unfold quote. now rewrite append_cons, append_assoc, append_cons, append_nil.
Qed.

Lemma skip_ws_quote (s rest : string) :
  skip_ws (quote s +:+ rest) = quote s +:+ rest.
Proof. rewrite quote_head. now apply skip_ws_cons. Qed.

(** One member followed by a comma, and the last member of an object. *)
Lemma parse_members_more (fuel : nat) (k v rest : string) :
  parse_members (S fuel) (quote k +:+ ":" +:+ quote v +:+ "," +:+ rest) =
  match parse_members fuel rest with
  | Some (kvs, r) => Some ((k, v) :: kvs, r)
  | None => None
  end.
Proof.
  cbn [parse_members].
  rewrite skip_ws_quote, parse_string_quote.
  rewrite append_cons, append_nil, skip_ws_cons by reflexivity.
  rewrite skip_ws_quote, parse_string_quote.
  rewrite append_cons, append_nil, skip_ws_cons by reflexivity.
  reflexivity.
Qed.

Lemma parse_members_last (fuel : nat) (k v rest : string) :
  parse_members (S fuel) (quote k +:+ ":" +:+ quote v +:+ "}" +:+ rest) =
  Some ([(k, v)], rest).
Proof.
  cbn [parse_members].
  rewrite skip_ws_quote, parse_string_quote.
  rewrite append_cons, append_nil, skip_ws_cons by reflexivity.
  rewrite skip_ws_quote, parse_string_quote.
  rewrite append_cons, append_nil, skip_ws_cons by reflexivity.
  reflexivity.
Qed.

Lemma stringify_bookmark_head (b : Bookmark) (rest : string) :
  stringify_bookmark b +:+ rest =
  String "{" (quote "id" +:+ ":" +:+ quote (id b) +:+
    "," +:+ quote "note" +:+ ":" +:+ quote (note b) +:+
    "," +:+ quote "app" +:+ ":" +:+ quote (app b) +:+
    "," +:+ quote "timestamp" +:+ ":" +:+ quote (timestamp b) +:+
    "}" +:+ rest).
Proof.
  unfold stringify_bookmark. rewrite !append_assoc.
  now rewrite append_cons, append_nil.
Qed.

Lemma parse_object_members (fuel : nat) (k rest : string) :
  parse_object fuel (String "{" (quote k +:+ rest)) =
  parse_members fuel (quote k +:+ rest).
Proof.
  unfold parse_object. rewrite skip_ws_quote, quote_head. reflexivity.
Qed.

(** An object written by [stringify_bookmark] is read back member by
    member; four turns of the member loop are enough. *)
Lemma parse_object_bookmark (f : nat) (b : Bookmark) (rest : string) :
  parse_object (4 + f) (stringify_bookmark b +:+ rest) =
  Some ([("id", id b); ("note", note b); ("app", app b);
         ("timestamp", timestamp b)], rest).
Proof.
  rewrite stringify_bookmark_head, parse_object_members.
  change (4 + f) with (S (S (S (S f)))).
  now rewrite !parse_members_more, parse_members_last.
Qed.

Lemma bookmark_of_object_bookmark (b : Bookmark) :
  bookmark_of_object [("id", id b); ("note", note b); ("app", app b);
                      ("timestamp", timestamp b)] = Some b.
Proof. now destruct b. Qed.

Lemma parse_elements_stringify (bs : list Bookmark) :
  ∀ (b : Bookmark) (f : nat) (rest : string),
    (List.length bs ≤ f)%nat →
    parse_elements (5 + f) (stringify_elements (b :: bs) +:+ "]" +:+ rest) =
    Some (b :: bs, rest).
Proof.
  induction bs as [|b' bs IH]; intros b f rest Hf.
  - cbn [stringify_elements]. change (5 + f) with (S (4 + f)).
    cbn [parse_elements].
    rewrite stringify_bookmark_head, skip_ws_cons by reflexivity.
    rewrite <- stringify_bookmark_head, parse_object_bookmark.
    rewrite bookmark_of_object_bookmark.
    now rewrite append_cons, append_nil, skip_ws_cons by reflexivity.
  - destruct f as [|f]; [simpl in Hf; lia |].
    change (stringify_elements (b :: b' :: bs))
      with (stringify_bookmark b +:+ "," +:+ stringify_elements (b' :: bs)).
    rewrite !append_assoc.
    change (5 + S f) with (S (4 + S f)). cbn [parse_elements].
    rewrite stringify_bookmark_head, skip_ws_cons by reflexivity.
    rewrite <- stringify_bookmark_head, parse_object_bookmark.
    rewrite bookmark_of_object_bookmark.
    rewrite append_cons, append_nil, skip_ws_cons by reflexivity.
    change (4 + S f) with (5 + f).
    rewrite IH by (simpl in Hf; lia). reflexivity.
Qed.

Lemma stringify_elements_length (bs : list Bookmark) (b : Bookmark) :
  (4 + List.length bs ≤ String.length (stringify_elements (b :: bs)))%nat.
Proof.
  revert b. induction bs as [|b' bs IH]; intros b.
  - cbn [stringify_elements]. unfold stringify_bookmark, quote.
    rewrite !append_length. simpl. lia.
  - change (stringify_elements (b :: b' :: bs))
      with (stringify_bookmark b +:+ "," +:+ stringify_elements (b' :: bs)).
    rewrite !append_length. specialize (IH b'). simpl in *. lia.
Qed.

Lemma stringify_elements_head (bs : list Bookmark) (b : Bookmark) :
  ∃ r, stringify_elements (b :: bs) = String "{" r.
Proof.
  destruct bs as [|b' bs].
  - cbn [stringify_elements]. unfold stringify_bookmark.
    rewrite append_cons, append_nil. eauto.
  - change (stringify_elements (b :: b' :: bs))
      with (stringify_bookmark b +:+ "," +:+ stringify_elements (b' :: bs)).
    rewrite stringify_bookmark_head. eauto.
Qed.

Lemma parse_array_elements (fuel : nat) (r : string) :
  parse_array fuel (String "[" (String "{" r)) =
  parse_elements fuel (String "{" r).
Proof. reflexivity. Qed.

(** [JSON.parse] undoes [JSON.stringify] on every bookmark list. *)
Lemma parse_stringify (bs : list Bookmark) : parse (stringify bs) = Some bs.
Proof.
  unfold parse, stringify.
  destruct bs as [|b bs]; [reflexivity |].
  pose proof (stringify_elements_length bs b) as Hlen.
  destruct (stringify_elements_head bs b) as [r Hr].
  rewrite !append_length.
  rewrite (append_cons "[" "" _), append_nil, skip_ws_cons by reflexivity.
  rewrite Hr at 2. rewrite append_cons, parse_array_elements.
  rewrite <- append_cons, <- Hr.
  change (String.length "[") with 1. change (String.length "]") with 1.
  replace (S (1 + (String.length (stringify_elements (b :: bs)) + 1)))
    with (5 + (String.length (stringify_elements (b :: bs)) - 2)) by lia.
  rewrite <- (append_nil "") at 1. rewrite <- (append_cons "]" "" "").
  rewrite parse_elements_stringify by lia.
  reflexivity.
Qed.

End JSONFacts.


(** ** Facts about the handlers *)

Lemma truthy_true (s : string) : truthy s = true ↔ s ≠ "".
Proof. destruct s; simpl; split; intros; congruence. Qed.

Lemma stringify_truthy (bs : list Bookmark) : truthy (JSON.stringify bs) = true.
Proof. reflexivity. Qed.

Lemma handleSaveNote_guarded (now : Z) (ok : bool) (st : State) (c : Capture.t) :
  currentNote st ≠ "" → context st = Some c →
  handleSaveNote now ok st =
  let updated := newBookmark now (currentNote st) c :: bookmarks st in
  let st1 := setBookmarks updated st in
  if ok then
    setModalVisible false (setContext None (setCurrentNote ""
      (setStorage (<["bookmarks" := JSON.stringify updated]> (storage st)) st1)))
  else
    emit (AlertAlert "Error" "Could not save the bookmark.")
      (emit (ConsoleError "Failed to save bookmark.") st1).
Proof.
  intros Hnote Hctx. unfold handleSaveNote.
  apply truthy_true in Hnote. now rewrite Hnote, Hctx.
Qed.

Lemma persisted_stringify (st : State) (bs : list Bookmark) :
  storage st !! "bookmarks" = Some (JSON.stringify bs) → persisted st = Some bs.
Proof.
  intros H. unfold persisted, AsyncStorage.getItem. rewrite H. simpl.
  apply JSONFacts.parse_stringify.
Qed.

(** A save whose write succeeds leaves the list and the blob in sync. *)
Lemma handleSaveNote_written_in_sync (now : Z) (st : State) (c : Capture.t) :
  currentNote st ≠ "" → context st = Some c →
  persisted (handleSaveNote now true st) =
  Some (bookmarks (handleSaveNote now true st)).
Proof.
  intros Hnote Hctx. rewrite (handleSaveNote_guarded _ _ _ c) by assumption.
  apply persisted_stringify. simpl. apply lookup_insert_eq.
Qed.

Lemma bookmarks_checkStatus (p s : outcome bool) (st : State) :
  bookmarks (checkStatus p s st) = bookmarks st.
Proof. destruct p as [[]|], s as [?|]; reflexivity. Qed.

Lemma storage_checkStatus (p s : outcome bool) (st : State) :
  storage (checkStatus p s st) = storage st.
Proof. destruct p as [[]|], s as [?|]; reflexivity. Qed.

Lemma storage_loadBookmarks (r : bool) (st : State) :
  storage (loadBookmarks r st) = storage st.
Proof.
  unfold loadBookmarks, AsyncStorage.getItem.
  destruct r; [|reflexivity].
  destruct (storage st !! "bookmarks") as [s|]; [|reflexivity].
  destruct (truthy s); [|reflexivity].
  now destruct (JSON.parse s).
Qed.

Lemma flags_loadBookmarks (r : bool) (st : State) :
  hasPermission (loadBookmarks r st) = hasPermission st ∧
  isServiceRunning (loadBookmarks r st) = isServiceRunning st.
Proof.
  unfold loadBookmarks, AsyncStorage.getItem.
  destruct r; [|now split].
  destruct (storage st !! "bookmarks") as [s|]; [|now split].
  destruct (truthy s); [|now split].
  now destruct (JSON.parse s).
Qed.

Lemma storage_mount (r : bool) (p s : outcome bool) (store : gmap string string) :
  storage (mount r p s store) = store.
Proof. unfold mount. now rewrite storage_checkStatus, storage_loadBookmarks. Qed.

(** A launch that can read the store shows the list the blob was written
    from. *)
Lemma mount_reads_back (p s : outcome bool) (store : gmap string string)
    (bs : list Bookmark) :
  store !! "bookmarks" = Some (JSON.stringify bs) →
  bookmarks (mount true p s store) = bs.
Proof.
  intros H. unfold mount. rewrite bookmarks_checkStatus.
  unfold loadBookmarks, AsyncStorage.getItem. simpl. rewrite H.
  now rewrite stringify_truthy, JSONFacts.parse_stringify.
Qed.


Lemma step_context (ev : Event) (st : State) :
  keeps_context ev = true → context (step ev st) = context st.
Proof.
  destruct ev as [[a|] ts|[[]|]|g| |now ok|]; simpl; try reflexivity;
    try discriminate.
  intros _. unfold toggleService, requestPermission.
  destruct (isServiceRunning st), (hasPermission st), g as [[]|]; reflexivity.
Qed.

Lemma run_events_context (evs : list Event) :
  ∀ st, Forall (λ ev, keeps_context ev = true) evs →
        context (run_events evs st) = context st.
Proof.
  induction evs as [|ev evs IH]; intros st Hall; [reflexivity |].
  inversion Hall as [|? ? Hev Hevs]; subst. simpl.
  fold (run_events evs (step ev st)).
  rewrite IH by assumption. now apply step_context.
Qed.

(** In a state of the screen, a running service has the permission. *)
Lemma reachable_running_permitted (st : State) :
  reachable st → isServiceRunning st = true → hasPermission st = true.
Proof.
  induction 1 as [r p s store|st ev Hreach IH Hen].
  - unfold mount.
    destruct (flags_loadBookmarks r (initial store)) as [Hp Hs].
    destruct p as [[]|], s as [[]|]; simpl; rewrite ?Hp, ?Hs; simpl; congruence.
  - destruct ev as [a ts|g|g|text|now ok|]; simpl in Hen |- *.
    + destruct a; simpl; exact IH.
    + intros Hrun.
      assert (Hrun' : isServiceRunning st = true)
        by (destruct g as [[]|]; exact Hrun).
      rewrite (IH Hrun') in Hen. discriminate.
    + unfold toggleService. rewrite Hen.
      destruct (isServiceRunning st); simpl; congruence.
    + exact IH.
    + unfold handleSaveNote.
      destruct (truthy (currentNote st)), (context st), ok; simpl; exact IH.
    + exact IH.
Qed.

Lemma issued_nil (st st' : State) :
  effects st' = effects st → issued st st' = [].
Proof. intros H. unfold issued. rewrite H. apply drop_all. Qed.

Lemma issued_app (st st' : State) (new : list Effect) :
  effects st' = (effects st ++ new)%list → issued st st' = new.
Proof. intros H. unfold issued. rewrite H. apply drop_app_length. Qed.

(** ** The claims on saving *)

(** C4: the list is ordered newest first.  A save that gets past its guard
    leaves the new bookmark followed by the prior bookmarks in their
    previous order, and a successful write persists that same sequence. *)
Theorem handleSaveNote_newest_first (now : Z) (ok : bool) (st : State)
    (c : Capture.t) :
  currentNote st ≠ "" → context st = Some c →
  bookmarks (handleSaveNote now ok st) =
    newBookmark now (currentNote st) c :: bookmarks st
  ∧ (ok = true →
     persisted (handleSaveNote now ok st) =
       Some (newBookmark now (currentNote st) c :: bookmarks st)).
Proof.
  intros Hnote Hctx. split.
  - rewrite (handleSaveNote_guarded _ _ _ c) by assumption.
    now destruct ok.
  - intros ->.
    rewrite (handleSaveNote_written_in_sync _ _ c) by assumption.
    rewrite (handleSaveNote_guarded _ _ _ c) by assumption. reflexivity.
Qed.

Lemma handleSaveNote_newest_first_witness :
  bookmarks (handleSaveNote 1704208210000 true captured_again) =
    [mkBookmark "1704208210000" "check this" "com.android.settings"
                "1/2/2024, 3:10:00 PM";
     mkBookmark "1704207845000" "read later" "com.android.chrome"
                "1/2/2024, 3:04:05 PM"]
  ∧ (true = true →
     persisted (handleSaveNote 1704208210000 true captured_again) =
       Some [mkBookmark "1704208210000" "check this" "com.android.settings"
                        "1/2/2024, 3:10:00 PM";
             mkBookmark "1704207845000" "read later" "com.android.chrome"
                        "1/2/2024, 3:04:05 PM"]).
Proof.
  apply (handleSaveNote_newest_first 1704208210000 true captured_again
           (Capture.mk "com.android.settings" "1/2/2024, 3:10:00 PM")).
  - vm_compute. discriminate.
  - reflexivity.
Defined.

(** C5: a bookmark's note must be non-empty to be saved.  With an empty
    note text the save creates no bookmark and changes nothing: neither the
    list in memory nor the persisted blob, nor anything else. *)
Theorem handleSaveNote_empty_note (now : Z) (ok : bool) (st : State) :
  currentNote st = "" →
  handleSaveNote now ok st = st
  ∧ bookmarks (handleSaveNote now ok st) = bookmarks st
  ∧ storage (handleSaveNote now ok st) !! "bookmarks" = storage st !! "bookmarks".
Proof.
  intros Hnote.
  assert (H : handleSaveNote now ok st = st)
    by (unfold handleSaveNote; now rewrite Hnote).
  now rewrite H.
Qed.

Lemma handleSaveNote_empty_note_witness :
  handleSaveNote 1704207845000 true (setCurrentNote "" captured)
    = setCurrentNote "" captured
  ∧ bookmarks (handleSaveNote 1704207845000 true (setCurrentNote "" captured))
    = bookmarks (setCurrentNote "" captured)
  ∧ storage (handleSaveNote 1704207845000 true (setCurrentNote "" captured))
      !! "bookmarks"
    = storage (setCurrentNote "" captured) !! "bookmarks".
Proof.
  apply (handleSaveNote_empty_note 1704207845000 true
           (setCurrentNote "" captured)).
  reflexivity.
Defined.

(** C10: without a capture context the save is a no-op.  It creates no
    bookmark and leaves the list, the persisted blob, the note text and the
    dialog as they were. *)
Theorem handleSaveNote_no_context (now : Z) (ok : bool) (st : State) :
  context st = None →
  handleSaveNote now ok st = st
  ∧ bookmarks (handleSaveNote now ok st) = bookmarks st
  ∧ storage (handleSaveNote now ok st) = storage st
  ∧ currentNote (handleSaveNote now ok st) = currentNote st
  ∧ modalVisible (handleSaveNote now ok st) = modalVisible st.
Proof.
  intros Hctx.
  assert (H : handleSaveNote now ok st = st).
  { unfold handleSaveNote. rewrite Hctx. now destruct (truthy (currentNote st)). }
  now rewrite H.
Qed.

Lemma handleSaveNote_no_context_witness :
  handleSaveNote 1704207845000 true (setCurrentNote "read later" launched)
    = setCurrentNote "read later" launched
  ∧ bookmarks (handleSaveNote 1704207845000 true
                 (setCurrentNote "read later" launched))
    = bookmarks (setCurrentNote "read later" launched)
  ∧ storage (handleSaveNote 1704207845000 true
               (setCurrentNote "read later" launched))
    = storage (setCurrentNote "read later" launched)
  ∧ currentNote (handleSaveNote 1704207845000 true
                   (setCurrentNote "read later" launched))
    = currentNote (setCurrentNote "read later" launched)
  ∧ modalVisible (handleSaveNote 1704207845000 true
                    (setCurrentNote "read later" launched))
    = modalVisible (setCurrentNote "read later" launched).
Proof.
  apply (handleSaveNote_no_context 1704207845000 true
           (setCurrentNote "read later" launched)).
  reflexivity.
Defined.


(** C7: persistence round-trips.  Parsing undoes serializing on every
    bookmark list; a save writes the whole list as one JSON text under the
    key bookmarks and touches no other key; and the start-up load over that
    store gives back the list that was saved. *)
Theorem persistence_round_trip (now : Z) (st : State) (c : Capture.t) :
  currentNote st ≠ "" → context st = Some c →
  (∀ bs, JSON.parse (JSON.stringify bs) = Some bs)
  ∧ storage (handleSaveNote now true st) =
      <["bookmarks" := JSON.stringify (bookmarks (handleSaveNote now true st))]>
        (storage st)
  ∧ (∀ p s, bookmarks (mount true p s (storage (handleSaveNote now true st))) =
            bookmarks (handleSaveNote now true st)).
Proof.
  intros Hnote Hctx. split; [exact JSONFacts.parse_stringify |].
  rewrite (handleSaveNote_guarded _ _ _ c) by assumption. simpl.
  split; [reflexivity |].
  intros p s. apply mount_reads_back, lookup_insert_eq.
Qed.

Lemma persistence_round_trip_witness :
  (∀ bs, JSON.parse (JSON.stringify bs) = Some bs)
  ∧ storage (handleSaveNote 1704207845000 true captured) =
      <["bookmarks" :=
          JSON.stringify (bookmarks (handleSaveNote 1704207845000 true captured))]>
        (storage captured)
  ∧ (∀ p s,
       bookmarks (mount true p s
                    (storage (handleSaveNote 1704207845000 true captured))) =
       bookmarks (handleSaveNote 1704207845000 true captured)).
Proof.
  apply (persistence_round_trip 1704207845000 captured
           (Capture.mk "com.android.chrome" "1/2/2024, 3:04:05 PM")).
  - vm_compute. discriminate.
  - reflexivity.
Defined.

(** C8: the source app and the timestamp are those of the button press, not
    of the save.  After a capture, and whatever other events pass before the
    user confirms (typing, cancelling, toggling the service), the bookmark a
    save puts at the head of the list has the app name the collaborator gave
    during the event and the time string taken during the event. *)
Theorem capture_fields_fixed_at_event (st : State) (a ts : string)
    (evs : list Event) (now : Z) (ok : bool) :
  Forall (λ ev, keeps_context ev = true) evs →
  currentNote (run_events evs (onFloatingButtonPress (Resolved a) ts st)) ≠ "" →
  ∃ b,
    bookmarks (handleSaveNote now ok
                 (run_events evs (onFloatingButtonPress (Resolved a) ts st))) =
      b :: bookmarks (run_events evs (onFloatingButtonPress (Resolved a) ts st))
    ∧ app b = a ∧ timestamp b = ts.
Proof.
  intros Hquiet Hnote.
  set (st1 := run_events evs (onFloatingButtonPress (Resolved a) ts st)) in *.
  assert (Hctx : context st1 = Some (Capture.mk a ts))
    by (subst st1; now rewrite run_events_context).
  exists (newBookmark now (currentNote st1) (Capture.mk a ts)).
  rewrite (handleSaveNote_guarded _ _ _ (Capture.mk a ts)) by assumption.
  now destruct ok.
Qed.

Lemma capture_fields_fixed_at_event_witness :
  ∃ b,
    bookmarks (handleSaveNote 1704207999000 true
                 (run_events [ChangeText "read"; PressCancel;
                              ChangeText "read later"]
                    (onFloatingButtonPress (Resolved "com.android.chrome")
                       "1/2/2024, 3:04:05 PM" launched))) =
      b :: bookmarks (run_events [ChangeText "read"; PressCancel;
                                  ChangeText "read later"]
                        (onFloatingButtonPress (Resolved "com.android.chrome")
                           "1/2/2024, 3:04:05 PM" launched))
    ∧ app b = "com.android.chrome" ∧ timestamp b = "1/2/2024, 3:04:05 PM".
Proof.
  apply (capture_fields_fixed_at_event launched "com.android.chrome"
           "1/2/2024, 3:04:05 PM"
           [ChangeText "read"; PressCancel; ChangeText "read later"]
           1704207999000 true).
  - repeat constructor.
  - vm_compute. discriminate.
Defined.

(** ** The claim on the service *)

Ltac issued_effects :=
  unfold issued; simpl;
  rewrite <- ?app_assoc, ?drop_app_length, ?drop_all; simpl.

(** An effect that is in none of the listed ones. *)
Ltac not_listed :=
  repeat (apply not_elem_of_cons; split; [discriminate |]);
  apply not_elem_of_nil.

Ltac listed_absurd :=
  let H := fresh "Hin" in
  intros H;
  repeat (apply elem_of_cons in H as [H|H]; [discriminate H |]);
  apply elem_of_nil in H; destruct H.

Lemma toggleService_issued (g : outcome bool) (st : State) :
  issued st (toggleService g st) =
  if isServiceRunning st then [CallNative StopFloatingWidgetService]
  else if hasPermission st then [CallNative StartFloatingWidgetService]
  else issued st (requestPermission g st).
Proof.
  unfold toggleService.
  destruct (isServiceRunning st), (hasPermission st); try reflexivity;
    now issued_effects.
Qed.

Lemma requestPermission_issued (g : outcome bool) (st : State) :
  ∃ rest,
    issued st (requestPermission g st) =
      CallNative RequestOverlayPermission :: rest
    ∧ CallNative StartFloatingWidgetService ∉ rest.
Proof.
  destruct g as [[]|]; issued_effects; eexists; (split; [reflexivity |]);
    not_listed.
Qed.

Lemma requestPermission_no_start (g : outcome bool) (st : State) :
  CallNative StartFloatingWidgetService ∉ issued st (requestPermission g st).
Proof.
  destruct (requestPermission_issued g st) as (rest & -> & Hrest).
  apply not_elem_of_cons. split; [discriminate | exact Hrest].
Qed.

Lemma step_issues_start (ev : Event) (st : State) :
  CallNative StartFloatingWidgetService ∈ issued st (step ev st) →
  ∃ g, ev = PressToggleService g
       ∧ isServiceRunning st = false ∧ hasPermission st = true.
Proof.
  destruct ev as [[a|] ts|g|g|text|now ok|]; simpl.
  - issued_effects. listed_absurd.
  - issued_effects. listed_absurd.
  - intros H. now apply requestPermission_no_start in H.
  - rewrite toggleService_issued.
    destruct (isServiceRunning st), (hasPermission st).
    + listed_absurd.
    + listed_absurd.
    + intros _. now exists g.
    + intros H. now apply requestPermission_no_start in H.
  - issued_effects. listed_absurd.
  - unfold handleSaveNote.
    destruct (truthy (currentNote st)), (context st), ok;
      issued_effects; listed_absurd.
  - issued_effects. listed_absurd.
Qed.

(** C9: the floating-button service is never started without the overlay
    permission.  In every state the screen can reach, whichever handler
    runs, the start call goes to the collaborator only when the tracked
    permission flag is true; and toggling the service while the flag is
    false sends a permission request and no start. *)
Theorem service_started_only_with_permission (st : State) :
  reachable st →
  (∀ ev, CallNative StartFloatingWidgetService ∈ issued st (step ev st) →
         hasPermission st = true)
  ∧ (∀ g, hasPermission st = false →
          (CallNative RequestOverlayPermission ∈ issued st (toggleService g st))
          ∧ (CallNative StartFloatingWidgetService
               ∉ issued st (toggleService g st))
          ∧ isServiceRunning (toggleService g st) = false).
Proof.
  intros Hreach. split.
  - intros ev Hstart.
    now destruct (step_issues_start ev st Hstart) as (g & _ & _ & Hperm).
  - intros g Hperm.
    assert (Hrun : isServiceRunning st = false).
    { destruct (isServiceRunning st) eqn:Hrun; [|reflexivity].
      rewrite (reachable_running_permitted st Hreach Hrun) in Hperm.
      discriminate. }
    rewrite toggleService_issued, Hrun, Hperm.
    split; [|split].
    + destruct (requestPermission_issued g st) as (rest & -> & _).
      apply list_elem_of_here.
    + apply requestPermission_no_start.
    + unfold toggleService. rewrite Hrun, Hperm.
      now destruct g as [[]|].
Qed.

Lemma service_started_only_with_permission_witness :
  (∀ ev,
     CallNative StartFloatingWidgetService
       ∈ issued (mount true (Resolved false) Rejected ∅)
                (step ev (mount true (Resolved false) Rejected ∅)) →
     hasPermission (mount true (Resolved false) Rejected ∅) = true)
  ∧ (∀ g, hasPermission (mount true (Resolved false) Rejected ∅) = false →
          (CallNative RequestOverlayPermission
             ∈ issued (mount true (Resolved false) Rejected ∅)
                      (toggleService g (mount true (Resolved false) Rejected ∅)))
          ∧ (CallNative StartFloatingWidgetService
               ∉ issued (mount true (Resolved false) Rejected ∅)
                        (toggleService g (mount true (Resolved false) Rejected ∅)))
          ∧ isServiceRunning
              (toggleService g (mount true (Resolved false) Rejected ∅)) = false).
Proof.
  apply (service_started_only_with_permission
           (mount true (Resolved false) Rejected ∅)).
  apply reachable_mount.
Defined.

(** ** The claim on identifiers *)

Lemma saves_true (st : State) :
  saves st = true ↔ currentNote st ≠ "" ∧ ∃ c, context st = Some c.
Proof.
  unfold saves. rewrite andb_true_iff, truthy_true, bool_decide_eq_true.
  reflexivity.
Qed.

Lemma handleSaveNote_not_saves (now : Z) (ok : bool) (st : State) :
  saves st = false → handleSaveNote now ok st = st.
Proof.
  unfold saves, handleSaveNote. intros H.
  destruct (truthy (currentNote st)); [|reflexivity].
  destruct (context st); [|reflexivity].
  cbv in H. discriminate H.
Qed.

Lemma step_keeps_lists (ev : Event) (st : State) :
  (∀ now ok, ev ≠ PressSaveNote now ok) →
  bookmarks (step ev st) = bookmarks st ∧ storage (step ev st) = storage st.
Proof.
  intros Hev.
  destruct ev as [[a|] ts|[[]|]|g| |now ok|]; simpl; try (split; reflexivity).
  - unfold toggleService, requestPermission.
    destruct (isServiceRunning st), (hasPermission st), g as [[]|];
      split; reflexivity.
  - now destruct (Hev now ok).
Qed.

Lemma mount_ids_from (r : bool) (p s : outcome bool) (seen : list Z)
    (st : State) :
  ids_from seen st → ids_from seen (mount r p s (storage st)).
Proof.
  intros [_ Hstore]. split; [|now rewrite storage_mount].
  destruct Hstore as [Hnone|(bs & Hbs & Hsub)].
  - unfold mount. rewrite bookmarks_checkStatus.
    unfold loadBookmarks, AsyncStorage.getItem. simpl. rewrite Hnone.
    destruct r; apply sublist_nil_l.
  - destruct r.
    + now rewrite (mount_reads_back p s _ bs).
    + unfold mount. rewrite bookmarks_checkStatus. apply sublist_nil_l.
Qed.

Lemma act_ids_from (a : Action) (seen : list Z) (st : State) :
  ids_from seen st → ids_from (reading a st ++ seen) (act a st).
Proof.
  intros Hinv. destruct a as [r p s|ev]; [now apply mount_ids_from |].
  assert (Hkeep : (∀ now ok, ev ≠ PressSaveNote now ok) →
                  ids_from (reading (UI ev) st ++ seen) (act (UI ev) st)).
  { intros Hev. destruct (step_keeps_lists ev st Hev) as [Hb Hs].
    replace (reading (UI ev) st) with (@nil Z)
      by (destruct ev as [| | | |now ok|];
          try reflexivity; now destruct (Hev now ok)).
    unfold ids_from. cbn [act]. rewrite Hb, Hs. exact Hinv. }
  destruct ev as [a ts|g|g|text|now ok|]; try (apply Hkeep; discriminate).
  clear Hkeep. cbn [act step reading]. destruct (saves st) eqn:Hsaves.
  - apply saves_true in Hsaves as [Hnote [c Hctx]].
    rewrite (handleSaveNote_guarded _ _ _ c) by assumption.
    destruct Hinv as [Hmem Hstore]. unfold ids_from.
    destruct ok; cbn -[JSON.stringify pretty lookup insert]; split.
    + now apply sublist_skip.
    + right. eexists. rewrite lookup_insert_eq. split; [reflexivity |].
      now apply sublist_skip.
    + now apply sublist_skip.
    + destruct Hstore as [Hnone|(bs & Hbs & Hsub)]; [now left | right].
      exists bs. split; [assumption | now apply sublist_cons].
  - now rewrite handleSaveNote_not_saves.
Qed.

Lemma reading_reverse (a : Action) (st : State) :
  reverse (reading a st) = reading a st.
Proof.
  destruct a as [|[]]; try reflexivity. simpl. now destruct (saves st).
Qed.

Lemma run_ids_from (acts : list Action) :
  ∀ (seen : list Z) (st : State),
    ids_from seen st → ids_from (reverse (readings acts st) ++ seen) (run acts st).
Proof.
  induction acts as [|a acts IH]; intros seen st Hinv; [exact Hinv |].
  simpl. fold (run acts (act a st)).
  rewrite reverse_app, reading_reverse, <- app_assoc.
  now apply IH, act_ids_from.
Qed.

Lemma ids_from_readings (seen : list Z) (bs : list Bookmark) (b : Bookmark) :
  (id <$> bs) `sublist_of` (pretty <$> reverse seen) → b ∈ bs →
  ∃ t, t ∈ seen ∧ id b = pretty t.
Proof.
  intros Hsub Hb.
  assert (Hid : id b ∈ pretty <$> reverse seen)
    by (eapply elem_of_sublist; [|exact Hsub]; now apply list_elem_of_fmap_2).
  apply list_elem_of_fmap in Hid as (t & Hid & Ht).
  exists t. split; [now apply elem_of_reverse | exact Hid].
Qed.

(** C3, as the code has it.  The identifier is derived from the creation
    time: from the first launch on, through any events and relaunches,
    every bookmark of the list and of the persisted sequence has for
    identifier the decimal numeral of a clock reading taken by a save of
    the run.  It is unique when the clock is: if the readings taken by the
    saves are pairwise distinct, the identifiers of the bookmarks of the
    list are pairwise distinct, and so are those of the persisted
    sequence. *)
Theorem ids_unique_when_readings_distinct (r : bool) (p s : outcome bool)
    (acts : list Action) :
  (∀ b, b ∈ bookmarks (run acts (mount r p s ∅)) →
        ∃ t, t ∈ readings acts (mount r p s ∅) ∧ id b = pretty t)
  ∧ (∀ bs b, persisted (run acts (mount r p s ∅)) = Some bs → b ∈ bs →
             ∃ t, t ∈ readings acts (mount r p s ∅) ∧ id b = pretty t)
  ∧ (NoDup (readings acts (mount r p s ∅)) →
     NoDup (id <$> bookmarks (run acts (mount r p s ∅)))
     ∧ (∀ bs, persisted (run acts (mount r p s ∅)) = Some bs →
              NoDup (id <$> bs))).
Proof.
  assert (Hinit : ids_from [] (mount r p s ∅)).
  { split; [|left; now rewrite storage_mount].
    unfold mount. rewrite bookmarks_checkStatus. now destruct r. }
  apply (run_ids_from acts) in Hinit. rewrite app_nil_r in Hinit.
  destruct Hinit as [Hmem Hstore].
  assert (Hpersisted : ∀ bs, persisted (run acts (mount r p s ∅)) = Some bs →
            (id <$> bs)
              `sublist_of` (pretty <$> reverse (readings acts (mount r p s ∅)))).
  { intros bs Hbs. destruct Hstore as [Hnone|(bs' & Hbs' & Hsub)].
    - unfold persisted, AsyncStorage.getItem in Hbs. now rewrite Hnone in Hbs.
    - rewrite (persisted_stringify _ bs') in Hbs by assumption.
      now injection Hbs as <-. }
  split; [|split].
  - intros b Hb. now apply (ids_from_readings _ _ b Hmem).
  - intros bs b Hbs Hb. now apply (ids_from_readings _ _ b (Hpersisted bs Hbs)).
  - intros Hdistinct.
    assert (Hnumerals :
              NoDup (pretty <$> reverse (readings acts (mount r p s ∅))))
      by (apply (NoDup_fmap_2 _); now rewrite reverse_Permutation).
    split.
    + exact (sublist_NoDup _ _ Hnumerals Hmem).
    + intros bs Hbs. exact (sublist_NoDup _ _ Hnumerals (Hpersisted bs Hbs)).
Qed.

(** A run with a rejected write, a retry that is written and a relaunch. *)
Lemma ids_unique_when_readings_distinct_witness :
  (∀ b,
     b ∈ bookmarks
           (run [UI (PressToggleService Rejected);
                 UI (FloatingButtonPress (Resolved "com.android.chrome")
                                         "1/2/2024, 3:04:05 PM");
                 UI (ChangeText "read later");
                 UI (PressSaveNote 1704207845000 false);
                 UI (PressSaveNote 1704207846500 true);
                 Launch true (Resolved true) (Resolved true)]
                (mount true (Resolved true) (Resolved false) ∅)) →
     ∃ t, t ∈ [1704207845000%Z; 1704207846500%Z] ∧ id b = pretty t)
  ∧ NoDup (id <$> bookmarks
             (run [UI (PressToggleService Rejected);
                   UI (FloatingButtonPress (Resolved "com.android.chrome")
                                           "1/2/2024, 3:04:05 PM");
                   UI (ChangeText "read later");
                   UI (PressSaveNote 1704207845000 false);
                   UI (PressSaveNote 1704207846500 true);
                   Launch true (Resolved true) (Resolved true)]
                  (mount true (Resolved true) (Resolved false) ∅))).
Proof.
  destruct (ids_unique_when_readings_distinct true (Resolved true)
              (Resolved false)
              [UI (PressToggleService Rejected);
               UI (FloatingButtonPress (Resolved "com.android.chrome")
                                       "1/2/2024, 3:04:05 PM");
               UI (ChangeText "read later");
               UI (PressSaveNote 1704207845000 false);
               UI (PressSaveNote 1704207846500 true);
               Launch true (Resolved true) (Resolved true)])
    as (Hnumeral & _ & Hunique).
  split; [exact Hnumeral |].
  refine (proj1 (Hunique _)).
  vm_compute. repeat constructor; listed_absurd.
Defined.

Lemma same_reading_session_bookmarks :
  bookmarks same_reading_session =
  [mkBookmark "1704207845000" "check this" "com.android.settings"
              "1/2/2024, 3:02:00 PM";
   mkBookmark "1704207845000" "read later" "com.android.chrome"
              "1/2/2024, 3:04:05 PM"].
Proof. vm_compute. reflexivity. Qed.

(** C3 as stated fails: two distinct bookmarks of one list carry the same
    identifier when their saves read the same millisecond. *)
Lemma ids_not_unique_counterexample :
  ¬ (∀ b1 b2, b1 ∈ bookmarks same_reading_session →
              b2 ∈ bookmarks same_reading_session →
              b1 ≠ b2 → id b1 ≠ id b2).
Proof.
  intros Hclaim. rewrite same_reading_session_bookmarks in Hclaim.
  apply (Hclaim
           (mkBookmark "1704207845000" "check this" "com.android.settings"
                       "1/2/2024, 3:02:00 PM")
           (mkBookmark "1704207845000" "read later" "com.android.chrome"
                       "1/2/2024, 3:04:05 PM")).
  - apply list_elem_of_here.
  - apply list_elem_of_further, list_elem_of_here.
  - discriminate.
  - reflexivity.
Qed.

(** ** Failures *)

(** A rejected foreground-app query changes no cell and nothing in the
    store; the listener logs the error and shows the alert. *)
Lemma capture_failure_changes_nothing (ts : string) (st : State) :
  data (onFloatingButtonPress Rejected ts st) = data st
  ∧ issued st (onFloatingButtonPress Rejected ts st) =
      [CallNative GetForegroundApp;
       ConsoleError "Failed to get context";
       AlertAlert "Error" "Could not get current app info. You may need to grant Usage Access permission manually in your phone's settings."].
Proof. split; [reflexivity | now issued_effects]. Qed.

(** A rejected write: the store, the note, the context and the dialog stay
    as they were and the alert is shown, but the list in memory has already
    taken the new bookmark. *)
Lemma handleSaveNote_write_failure (now : Z) (st : State) (c : Capture.t) :
  currentNote st ≠ "" → context st = Some c →
  data (handleSaveNote now false st) =
    data (setBookmarks (newBookmark now (currentNote st) c :: bookmarks st) st)
  ∧ issued st (handleSaveNote now false st) =
      [ConsoleError "Failed to save bookmark.";
       AlertAlert "Error" "Could not save the bookmark."].
Proof.
  intros Hnote Hctx. rewrite (handleSaveNote_guarded _ _ _ c) by assumption.
  split; [reflexivity | now issued_effects].
Qed.

(** Whenever the list and the blob agree, a save whose write is rejected
    leaves them apart. *)
Lemma handleSaveNote_write_failure_desync (now : Z) (st : State) (c : Capture.t) :
  currentNote st ≠ "" → context st = Some c →
  persisted st = Some (bookmarks st) →
  persisted (handleSaveNote now false st) ≠
  Some (bookmarks (handleSaveNote now false st)).
Proof.
  intros Hnote Hctx Hsync.
  rewrite (handleSaveNote_guarded _ _ _ c) by assumption.
  unfold persisted in *. cbn -[JSON.parse lookup]. rewrite Hsync.
  intros Heq. injection Heq as Heq.
  apply (f_equal List.length) in Heq. simpl in Heq. lia.
Qed.

(** C1, at a save whose write is rejected: the list in memory holds the new
    bookmark while nothing is persisted under the key, so the list and the
    blob are not in sync; a relaunch then shows a list without it. *)
Lemma save_write_failure_out_of_sync :
  bookmarks (handleSaveNote 1704207845000 false captured) =
    [mkBookmark "1704207845000" "read later" "com.android.chrome"
                "1/2/2024, 3:04:05 PM"]
  ∧ AsyncStorage.getItem "bookmarks"
      (storage (handleSaveNote 1704207845000 false captured)) = None
  ∧ persisted (handleSaveNote 1704207845000 false captured) ≠
      Some (bookmarks (handleSaveNote 1704207845000 false captured))
  ∧ bookmarks (act (Launch true (Resolved true) (Resolved true))
                 (handleSaveNote 1704207845000 false captured)) = [].
Proof.
  split; [vm_compute; reflexivity |].
  split; [vm_compute; reflexivity |].
  split; [vm_compute; discriminate | vm_compute; reflexivity].
Qed.

(** C2, at a save whose write is rejected: the alert is shown, but the
    failed save has changed the state, a bookmark was added to the list;
    and since the dialog keeps the note and the context, saving again puts
    the same note in the list a second time. *)
Lemma save_write_failure_adds_bookmark :
  data (handleSaveNote 1704207845000 false captured) ≠ data captured
  ∧ bookmarks captured = []
  ∧ bookmarks (handleSaveNote 1704207845000 false captured) =
      [mkBookmark "1704207845000" "read later" "com.android.chrome"
                  "1/2/2024, 3:04:05 PM"]
  ∧ issued captured (handleSaveNote 1704207845000 false captured) =
      [ConsoleError "Failed to save bookmark.";
       AlertAlert "Error" "Could not save the bookmark."]
  ∧ bookmarks (handleSaveNote 1704207846500 true
                 (handleSaveNote 1704207845000 false captured)) =
      [mkBookmark "1704207846500" "read later" "com.android.chrome"
                  "1/2/2024, 3:04:05 PM";
       mkBookmark "1704207845000" "read later" "com.android.chrome"
                  "1/2/2024, 3:04:05 PM"].
Proof.
  split.
  { intros Heq. apply (f_equal (λ d, List.length (snd (fst d)))) in Heq.
    vm_compute in Heq. discriminate Heq. }
  repeat split; vm_compute; reflexivity.
Qed.

(** ** Start-up *)

Lemma parse_empty : JSON.parse "" = None.
Proof. reflexivity. Qed.

Lemma loadBookmarks_bookmarks (r : bool) (st : State) :
  bookmarks st = [] →
  bookmarks (loadBookmarks r st) =
  if r then default [] (storage st !! "bookmarks" ≫= JSON.parse) else [].
Proof.
  intros Hempty. unfold loadBookmarks, AsyncStorage.getItem.
  destruct r; [|exact Hempty].
  destruct (storage st !! "bookmarks") as [text|]; [|exact Hempty].
  cbn -[JSON.parse].
  destruct text as [|c text]; [exact Hempty |].
  cbn -[JSON.parse]. now destruct (JSON.parse (String c text)).
Qed.

Lemma mount_bookmarks (r : bool) (p s : outcome bool)
    (store : gmap string string) :
  bookmarks (mount r p s store) =
  if r then default [] (store !! "bookmarks" ≫= JSON.parse) else [].
Proof.
  unfold mount. rewrite bookmarks_checkStatus.
  now rewrite loadBookmarks_bookmarks.
Qed.

Lemma loadBookmarks_effects (r : bool) (store : gmap string string) :
  effects (loadBookmarks r (initial store)) =
  if r then
    match store !! "bookmarks" with
    | Some text =>
      if truthy text then
        match JSON.parse text with
        | Some _ => []
        | None => [ConsoleError "Failed to load bookmarks."]
        end
      else []
    | None => []
    end
  else [ConsoleError "Failed to load bookmarks."].
Proof.
  unfold loadBookmarks, AsyncStorage.getItem. cbn -[JSON.parse lookup].
  destruct r; [|reflexivity].
  destruct (store !! "bookmarks") as [text|]; [|reflexivity].
  destruct (truthy text); [|reflexivity].
  now destruct (JSON.parse text).
Qed.

(** X1: what a launch shows.  Over a store where the key is missing, or
    holds the empty text, or holds the text the program wrote for a list,
    the list after mounting is that stored list when the read resolves, and
    the empty list when there is none or the read is rejected.  The load
    logs its error exactly when the read is rejected, and mounting never
    writes the store. *)
Theorem launch_shows_stored_list (r : bool) (p s : outcome bool)
    (store : gmap string string) (stored : option (list Bookmark)) :
  store !! "bookmarks" = JSON.stringify <$> stored
  ∨ (store !! "bookmarks" = Some "" ∧ stored = None) →
  bookmarks (mount r p s store) = (if r then default [] stored else [])
  ∧ (ConsoleError "Failed to load bookmarks."
       ∈ effects (loadBookmarks r (initial store))
     ↔ r = false)
  ∧ storage (mount r p s store) = store.
Proof.
  intros Hstore. rewrite mount_bookmarks, loadBookmarks_effects, storage_mount.
  destruct r.
  - assert (Hcases :
      default [] (store !! "bookmarks" ≫= JSON.parse) = default [] stored
      ∧ match store !! "bookmarks" with
        | Some text =>
          if truthy text then
            match JSON.parse text with
            | Some _ => []
            | None => [ConsoleError "Failed to load bookmarks."]
            end
          else []
        | None => []
        end = []).
    { destruct Hstore as [->|[-> ->]]; [|now split].
      destruct stored as [bs|]; [|now split].
      cbn -[JSON.parse JSON.stringify].
      now rewrite stringify_truthy, JSONFacts.parse_stringify. }
    destruct Hcases as [-> ->]. split; [reflexivity |].
    split; [|reflexivity]. split; [|discriminate].
    intros Hin. now apply elem_of_nil in Hin.
  - split; [reflexivity |]. split; [|reflexivity].
    split; [reflexivity | intros _; apply list_elem_of_here].
Qed.

Lemma launch_shows_stored_list_witness :
  bookmarks (mount true (Resolved true) Rejected (storage same_reading_session))
    = default [] (Some (bookmarks same_reading_session))
  ∧ (ConsoleError "Failed to load bookmarks."
       ∈ effects (loadBookmarks true (initial (storage same_reading_session)))
     ↔ true = false)
  ∧ storage (mount true (Resolved true) Rejected (storage same_reading_session))
    = storage same_reading_session.
Proof.
  apply (launch_shows_stored_list true (Resolved true) Rejected
           (storage same_reading_session)
           (Some (bookmarks same_reading_session))).
  left. vm_compute. reflexivity.
Defined.

Lemma loadBookmarks_cells (r : bool) (st : State) :
  hasPermission (loadBookmarks r st) = hasPermission st
  ∧ isServiceRunning (loadBookmarks r st) = isServiceRunning st
  ∧ modalVisible (loadBookmarks r st) = modalVisible st
  ∧ currentNote (loadBookmarks r st) = currentNote st
  ∧ context (loadBookmarks r st) = context st.
Proof.
  unfold loadBookmarks, AsyncStorage.getItem.
  destruct r; [|now repeat split].
  destruct (storage st !! "bookmarks") as [text|]; [|now repeat split].
  destruct (truthy text); [|now repeat split].
  now destruct (JSON.parse text).
Qed.

Lemma checkStatus_dialog (p s : outcome bool) (st : State) :
  modalVisible (checkStatus p s st) = modalVisible st
  ∧ currentNote (checkStatus p s st) = currentNote st
  ∧ context (checkStatus p s st) = context st.
Proof. destruct p as [[]|], s as [?|]; now repeat split. Qed.

Lemma mount_dialog (r : bool) (p s : outcome bool) (store : gmap string string) :
  modalVisible (mount r p s store) = false
  ∧ currentNote (mount r p s store) = ""
  ∧ context (mount r p s store) = None.
Proof.
  unfold mount.
  destruct (checkStatus_dialog p s (loadBookmarks r (initial store)))
    as (-> & -> & ->).
  destruct (loadBookmarks_cells r (initial store)) as (_ & _ & -> & -> & ->).
  now repeat split.
Qed.

Lemma checkStatus_issued (p s : outcome bool) (st : State) :
  issued st (checkStatus p s st) =
  match p with
  | Rejected =>
    [CallNative HasOverlayPermission; ConsoleError "Failed to check status."]
  | Resolved false => [CallNative HasOverlayPermission]
  | Resolved true =>
    match s with
    | Resolved _ =>
      [CallNative HasOverlayPermission; CallNative IsServiceRunning]
    | Rejected =>
      [CallNative HasOverlayPermission; CallNative IsServiceRunning;
       ConsoleError "Failed to check status."]
    end
  end.
Proof. destruct p as [[]|], s as [?|]; now issued_effects. Qed.

(** X2: the status check of a launch.  The permission flag is set exactly
    when the permission query resolves to true, and the service flag
    exactly when, in addition, the service query resolves to true.  The
    service status is asked for only when the permission was granted, and a
    failing query is logged without any alert. *)
Theorem launch_status_flags (r : bool) (p s : outcome bool)
    (store : gmap string string) :
  hasPermission (mount r p s store) = resolved_true p
  ∧ isServiceRunning (mount r p s store) = resolved_true p && resolved_true s
  ∧ ((CallNative IsServiceRunning
        ∈ issued (loadBookmarks r (initial store)) (mount r p s store))
     ↔ resolved_true p = true)
  ∧ (∀ title message,
       AlertAlert title message
         ∉ issued (loadBookmarks r (initial store)) (mount r p s store)).
Proof.
  unfold mount. rewrite checkStatus_issued.
  destruct (loadBookmarks_cells r (initial store)) as (Hp & Hs & _).
  destruct p as [[]|], s as [[]|]; cbn -[loadBookmarks]; rewrite ?Hp, ?Hs;
    (split; [reflexivity |]); (split; [reflexivity |]);
    (split; [|intros title message; not_listed]);
    (split; [intros Hin | intros Heq]);
    first [reflexivity | discriminate Heq
          | apply list_elem_of_further, list_elem_of_here
          | revert Hin; listed_absurd].
Qed.

(** ** The dialog *)

Lemma reachable_dialog_has_context (st : State) :
  reachable st → modalVisible st = true → is_Some (context st).
Proof.
  induction 1 as [r p s store|st ev Hreach IH Hen].
  - destruct (mount_dialog r p s store) as (-> & _). discriminate.
  - destruct ev as [a ts|g|g|text|now ok|]; simpl in Hen |- *.
    + destruct a; simpl; [eauto | exact IH].
    + destruct g as [[]|]; exact IH.
    + unfold toggleService, requestPermission.
      destruct (isServiceRunning st), (hasPermission st), g as [[]|]; exact IH.
    + exact IH.
    + unfold handleSaveNote.
      destruct (truthy (currentNote st)); [|exact IH].
      destruct (context st) as [c|] eqn:Hctx; [|now rewrite Hctx].
      destruct ok; simpl; [discriminate | now rewrite Hctx].
    + discriminate.
Qed.

(** X3: while the dialog is on screen there is a capture context.  In every
    state the screen can reach, a visible dialog has a context, so the
    context half of the guard of [handleSaveNote] never stops a save the
    user can press: with a non-empty note it adds exactly one bookmark. *)
Theorem open_dialog_save_adds_one (st : State) (now : Z) (ok : bool) :
  reachable st → enabled st (PressSaveNote now ok) = true →
  is_Some (context st)
  ∧ (currentNote st ≠ "" →
     List.length (bookmarks (handleSaveNote now ok st)) =
       S (List.length (bookmarks st))).
Proof.
  intros Hreach Hen. simpl in Hen.
  destruct (reachable_dialog_has_context st Hreach Hen) as [c Hctx].
  split; [eauto |]. intros Hnote.
  rewrite (handleSaveNote_guarded _ _ _ c) by assumption.
  now destruct ok.
Qed.

Lemma captured_reachable : reachable captured.
Proof.
  change captured
    with (step (ChangeText "read later")
            (step (FloatingButtonPress (Resolved "com.android.chrome")
                                       "1/2/2024, 3:04:05 PM")
               (step (PressToggleService Rejected) launched))).
  repeat (apply reachable_step; [|reflexivity]). apply reachable_mount.
Qed.

Lemma open_dialog_save_adds_one_witness :
  is_Some (context captured)
  ∧ (currentNote captured ≠ "" →
     List.length (bookmarks (handleSaveNote 1704207845000 false captured)) =
       S (List.length (bookmarks captured))).
Proof.
  apply (open_dialog_save_adds_one captured 1704207845000 false).
  - exact captured_reachable.
  - reflexivity.
Defined.

(** X4: a save that was written cannot be repeated.  Once the write of a
    save has resolved and the handler has run to its end, the note and the
    context are cleared, so a further press of Save, whatever the clock and
    the store answer, changes nothing.  (A press that arrives while the
    write is still pending is another matter: the resets have not run yet.) *)
Theorem save_after_written_save_is_noop (now1 now2 : Z) (ok2 : bool)
    (st : State) :
  handleSaveNote now2 ok2 (handleSaveNote now1 true st) =
  handleSaveNote now1 true st.
Proof.
  apply handleSaveNote_not_saves.
  destruct (saves st) eqn:Hsaves.
  - apply saves_true in Hsaves as [Hnote [c Hctx]].
    now rewrite (handleSaveNote_guarded _ _ _ c).
  - now rewrite handleSaveNote_not_saves.
Qed.

(** ** The service switch *)

(** X5: with the permission, the service button is a switch.  It sends one
    call to the collaborator, stop when the service is tracked as running
    and start when it is not, and flips the flag; pressing it twice sends
    both calls in that order and leaves every cell and the store as they
    were.  The permission answer is not used. *)
Theorem toggleService_twice (g1 g2 : outcome bool) (st : State) :
  hasPermission st = true →
  isServiceRunning (toggleService g1 st) = negb (isServiceRunning st)
  ∧ data (toggleService g2 (toggleService g1 st)) = data st
  ∧ issued st (toggleService g2 (toggleService g1 st)) =
      (if isServiceRunning st
       then [CallNative StopFloatingWidgetService;
             CallNative StartFloatingWidgetService]
       else [CallNative StartFloatingWidgetService;
             CallNative StopFloatingWidgetService]).
Proof.
  intros Hperm. unfold toggleService, data.
  destruct (isServiceRunning st) eqn:Hrun; simpl; rewrite ?Hperm; simpl;
    rewrite ?Hperm, ?Hrun; (split; [reflexivity |]);
    (split; [reflexivity | now issued_effects]).
Qed.

Lemma toggleService_twice_witness :
  isServiceRunning (toggleService Rejected launched)
    = negb (isServiceRunning launched)
  ∧ data (toggleService Rejected (toggleService Rejected launched))
    = data launched
  ∧ issued launched (toggleService Rejected (toggleService Rejected launched)) =
      (if isServiceRunning launched
       then [CallNative StopFloatingWidgetService;
             CallNative StartFloatingWidgetService]
       else [CallNative StartFloatingWidgetService;
             CallNative StopFloatingWidgetService]).
Proof.
  apply (toggleService_twice Rejected Rejected launched). reflexivity.
Defined.

(** ** The store *)

Lemma step_storage_other_keys (ev : Event) (st : State) (key : string) :
  key ≠ "bookmarks" → storage (step ev st) !! key = storage st !! key.
Proof.
  intros Hkey.
  destruct ev as [[a|] ts|[[]|]|g| |now ok|]; simpl; try reflexivity.
  - unfold toggleService, requestPermission.
    destruct (isServiceRunning st), (hasPermission st), g as [[]|]; reflexivity.
  - unfold handleSaveNote, AsyncStorage.setItem.
    destruct (truthy (currentNote st)), (context st), ok;
      cbn -[lookup insert JSON.stringify]; try reflexivity.
    now apply lookup_insert_ne.
Qed.

(** X6: the program owns one key.  Through any events and relaunches, the
    value stored under every key other than bookmarks stays what it was:
    the program never writes, and never removes, any other entry of the
    store. *)
Theorem only_bookmarks_key_written (acts : list Action) (st : State)
    (key : string) :
  key ≠ "bookmarks" → storage (run acts st) !! key = storage st !! key.
Proof.
  intros Hkey. revert st.
  induction acts as [|a acts IH]; intros st; [reflexivity |].
  simpl. fold (run acts (act a st)). rewrite IH.
  destruct a as [r p s|ev]; simpl.
  - now rewrite storage_mount.
  - now apply step_storage_other_keys.
Qed.

Lemma only_bookmarks_key_written_witness :
  storage (run [UI (PressSaveNote 1704207845000 true);
                Launch true (Resolved true) Rejected]
             (setStorage (<["theme" := "dark"]> ∅) captured)) !! "theme"
  = storage (setStorage (<["theme" := "dark"]> ∅) captured) !! "theme".
Proof.
  apply (only_bookmarks_key_written
           [UI (PressSaveNote 1704207845000 true);
            Launch true (Resolved true) Rejected]
           (setStorage (<["theme" := "dark"]> ∅) captured) "theme").
  discriminate.
Defined.





(** X8: a rejected read followed by a save loses what was stored.  When the
    start-up read is rejected the list starts empty although the store
    holds bookmarks; the first save then written replaces the stored
    sequence by the new bookmark alone. *)
Theorem save_after_failed_load_drops_stored (p s : outcome bool)
    (store : gmap string string) (stored : list Bookmark)
    (a ts text : string) (now : Z) :
  store !! "bookmarks" = Some (JSON.stringify stored) → text ≠ "" →
  bookmarks (mount false p s store) = []
  ∧ persisted (mount false p s store) = Some stored
  ∧ persisted
      (run_events [FloatingButtonPress (Resolved a) ts; ChangeText text;
                   PressSaveNote now true] (mount false p s store)) =
    Some [newBookmark now text (Capture.mk a ts)].
Proof.
  intros Hstore Htext.
  assert (Hempty : bookmarks (mount false p s store) = [])
    by now rewrite mount_bookmarks.
  split; [exact Hempty |]. split.
  - apply persisted_stringify. now rewrite storage_mount.
  - cbn [run_events foldl step].
    set (st := setCurrentNote text
                 (onFloatingButtonPress (Resolved a) ts (mount false p s store))).
    assert (Hbs : bookmarks st = []) by exact Hempty.
    assert (Hnote : currentNote st = text) by reflexivity.
    assert (Hctx : context st = Some (Capture.mk a ts)) by reflexivity.
    clearbody st.
    rewrite (handleSaveNote_written_in_sync _ _ (Capture.mk a ts))
      by (rewrite ?Hnote; assumption).
    rewrite (handleSaveNote_guarded _ _ _ (Capture.mk a ts))
      by (rewrite ?Hnote; assumption).
    cbn -[JSON.stringify lookup insert]. now rewrite Hbs, Hnote.
Qed.

Lemma save_after_failed_load_drops_stored_witness :
  bookmarks (mount false (Resolved true) (Resolved true)
               (storage same_reading_session)) = []
  ∧ persisted (mount false (Resolved true) (Resolved true)
                 (storage same_reading_session)) =
      Some (bookmarks same_reading_session)
  ∧ persisted
      (run_events [FloatingButtonPress (Resolved "com.android.chrome")
                     "1/3/2024, 9:00:00 AM";
                   ChangeText "new day";
                   PressSaveNote 1704272400000 true]
         (mount false (Resolved true) (Resolved true)
            (storage same_reading_session))) =
    Some [newBookmark 1704272400000 "new day"
            (Capture.mk "com.android.chrome" "1/3/2024, 9:00:00 AM")].
Proof.
  apply (save_after_failed_load_drops_stored (Resolved true) (Resolved true)
           (storage same_reading_session) (bookmarks same_reading_session)
           "com.android.chrome" "1/3/2024, 9:00:00 AM" "new day"
           1704272400000).
  - vm_compute. reflexivity.
  - discriminate.
Defined.

(** ** Sessions *)

(** X9: what changes the note text.  Typing sets it, a save that gets past
    its guard and is written clears it, and nothing else touches it: not a
    new capture, not Cancel, not a save whose write is rejected.  The text
    typed before a Cancel is still there when the dialog opens again. *)
Theorem currentNote_after_event (ev : Event) (st : State) :
  currentNote (step ev st) =
  match ev with
  | ChangeText text => text
  | PressSaveNote _ true => if saves st then "" else currentNote st
  | _ => currentNote st
  end.
Proof.
  destruct ev as [[a|] ts|[[]|]|g| |now ok|]; simpl; try reflexivity.
  - unfold toggleService, requestPermission.
    destruct (isServiceRunning st), (hasPermission st), g as [[]|]; reflexivity.
  - destruct (saves st) eqn:Hsaves.
    + apply saves_true in Hsaves as [Hnote [c Hctx]].
      rewrite (handleSaveNote_guarded _ _ _ c) by assumption.
      now destruct ok.
    + rewrite handleSaveNote_not_saves by assumption. now destruct ok.
Qed.

Lemma run_UI (evs : list Event) :
  ∀ st, run (UI <$> evs) st = run_events evs st.
Proof.
  induction evs as [|ev evs IH]; intros st; [reflexivity |].
  simpl. fold (run (UI <$> evs) (step ev st)).
  fold (run_events evs (step ev st)). apply IH.
Qed.

Lemma step_bookmarks_reading (ev : Event) (st : State) :
  ∃ new, bookmarks (step ev st) = (new ++ bookmarks st)%list
         ∧ id <$> new = pretty <$> reading (UI ev) st.
Proof.
  destruct ev as [a ts|g|g|text|now ok|];
    try (exists []; split; [|reflexivity];
         edestruct step_keeps_lists as [Hb _]; [|exact Hb]; discriminate).
  cbn [step reading]. destruct (saves st) eqn:Hsaves.
  - apply saves_true in Hsaves as [Hnote [c Hctx]].
    exists [newBookmark now (currentNote st) c].
    rewrite (handleSaveNote_guarded _ _ _ c) by assumption.
    now destruct ok.
  - exists []. now rewrite handleSaveNote_not_saves.
Qed.

(** X10: the list of a session, read off its saves.  After any events the
    list is the bookmarks the session added followed by the list it started
    with; the added ones are as many as the saves that got past the guard,
    and their identifiers are the numerals of the clock readings of those
    saves, the latest first. *)
Theorem session_adds_one_bookmark_per_save (evs : list Event) (st : State) :
  ∃ added,
    bookmarks (run_events evs st) = (added ++ bookmarks st)%list
    ∧ id <$> added = pretty <$> reverse (readings (UI <$> evs) st)
    ∧ List.length (bookmarks (run_events evs st)) =
        List.length (readings (UI <$> evs) st) + List.length (bookmarks st).
Proof.
  assert (H : ∃ added,
             bookmarks (run_events evs st) = (added ++ bookmarks st)%list
             ∧ id <$> added = pretty <$> reverse (readings (UI <$> evs) st)).
  { revert st. induction evs as [|ev evs IH]; intros st.
    - exists []. now split.
    - destruct (step_bookmarks_reading ev st) as (new & Hnew & Hids).
      destruct (IH (step ev st)) as (added & Hadded & Hadded_ids).
      exists (added ++ new)%list. split.
      + simpl. fold (run_events evs (step ev st)).
        now rewrite Hadded, Hnew, app_assoc.
      + cbn [fmap list_fmap readings act].
        rewrite reverse_app, reading_reverse, !fmap_app.
        now rewrite Hadded_ids, Hids. }
  destruct H as (added & Hadded & Hids). exists added.
  split; [exact Hadded |]. split; [exact Hids |].
  rewrite Hadded, length_app. f_equal.
  apply (f_equal List.length) in Hids.
  now rewrite !length_fmap, length_reverse in Hids.
Qed.

(** ** Alerts *)

(** X11: when the user sees an alert.  A handler shows an alert in three
    situations only: the foreground-app query of a button press is
    rejected, a permission request (from its button, or from the service
    button pressed without permission and with the service stopped)
    resolves to a refusal, or the write of a save is rejected.  A rejected
    permission request and every successful operation show none. *)
Theorem alert_only_on_failure (ev : Event) (st : State)
    (title message : string) :
  AlertAlert title message ∈ issued st (step ev st) →
  (∃ ts, ev = FloatingButtonPress Rejected ts)
  ∨ ev = PressRequestPermission (Resolved false)
  ∨ (ev = PressToggleService (Resolved false)
     ∧ isServiceRunning st = false ∧ hasPermission st = false)
  ∨ (∃ now, ev = PressSaveNote now false ∧ saves st = true).
Proof.
  destruct ev as [[a|] ts|[[]|]|g| |now ok|]; simpl.
  - issued_effects. listed_absurd.
  - intros _. left. now exists ts.
  - issued_effects. listed_absurd.
  - intros _. right. now left.
  - issued_effects. listed_absurd.
  - rewrite toggleService_issued.
    destruct (isServiceRunning st), (hasPermission st); try listed_absurd.
    destruct g as [[]|]; issued_effects; try listed_absurd.
    intros _. right. right. now left.
  - issued_effects. listed_absurd.
  - destruct (saves st) eqn:Hsaves.
    + destruct ok.
      * apply saves_true in Hsaves as [Hnote [c Hctx]].
        rewrite (handleSaveNote_guarded _ _ _ c) by assumption.
        issued_effects. listed_absurd.
      * intros _. right. right. right. now exists now.
    + rewrite handleSaveNote_not_saves by assumption.
      issued_effects. listed_absurd.
  - issued_effects. listed_absurd.
Qed.

Lemma alert_only_on_failure_witness :
  (∃ ts, PressSaveNote 1704207845000 false = FloatingButtonPress Rejected ts)
  ∨ PressSaveNote 1704207845000 false = PressRequestPermission (Resolved false)
  ∨ (PressSaveNote 1704207845000 false = PressToggleService (Resolved false)
     ∧ isServiceRunning captured = false ∧ hasPermission captured = false)
  ∨ (∃ now, PressSaveNote 1704207845000 false = PressSaveNote now false
            ∧ saves captured = true).
Proof.
  apply (alert_only_on_failure (PressSaveNote 1704207845000 false) captured
           "Error" "Could not save the bookmark.").
  vm_compute. apply list_elem_of_further, list_elem_of_here.
Defined.

(** ** Keeping what was saved *)







